(** * CUE4Parse-Natives: the C API header [cue4parse_c_api.h]

    The native module exposes one C-linkage entry point,
    [IsFeatureAvailable].  This development embeds the header line by
    line, gives it the meaning a C or a C++ compiler gives it
    (conditional inclusion, linkage blocks, type names, declaration
    specifiers), and states the interface properties of the declared
    function over the result. *)

From Stdlib Require Import ZArith List Bool Lia.
From Stdlib.Strings Require Import Byte.
From stdpp Require Import base option list gmap strings.

Local Open Scope string_scope.

(** ** C types *)

Module CTypes.

(** A type as it is written in a declaration. *)
Inductive type_expr :=
| TName (id : string)             (* [bool], [char], [uint8_t], ... *)
| TConst (t : type_expr)          (* [const T] *)
| TPointer (t : type_expr).       (* [T*] *)

(** A type as the compiler understands it. *)
Inductive ctype :=
| CVoid
| CBool                            (* C99 [_Bool], C++ [bool] *)
| CChar
| CInt (signed : bool) (bits : Z)  (* [int], and the <stdint.h> types *)
| CConst (t : ctype)
| CPointer (t : ctype).

#[export] Instance ctype_eq_dec : EqDecision ctype.
Proof. solve_decision. Defined.

Inductive language := LangC | LangCxx.

Inductive linkage := LinkageC | LinkageCxx.

Inductive calling_convention := Cdecl | Stdcall | Fastcall.

(** What a declaration specifier macro may expand to. *)
Inductive attribute :=
| AttrExport                                (* exported from the shared library *)
| AttrCallConv (cc : calling_convention).

#[export] Instance linkage_eq_dec : EqDecision linkage.
Proof. solve_decision. Defined.
#[export] Instance calling_convention_eq_dec : EqDecision calling_convention.
Proof. solve_decision. Defined.
#[export] Instance attribute_eq_dec : EqDecision attribute.
Proof. solve_decision. Defined.

(** A function declaration after translation. *)
Record fun_decl := {
  fd_name : string;
  fd_ret : ctype;
  fd_params : list (ctype * string);
  fd_linkage : linkage;
  fd_attrs : list attribute;
}.

(** Scalar conversion to a type, as performed on the operand of [return]
    (C99 6.8.6.4p3 with 6.3.1.2 for [_Bool] and 6.3.1.3 for integers;
    [char] is taken as an 8-bit signed type). *)
Definition wrap_unsigned (bits v : Z) : Z := (v mod 2 ^ bits)%Z.

Definition wrap_signed (bits v : Z) : Z :=
  let u := wrap_unsigned bits v in
  (if u <? 2 ^ (bits - 1) then u else u - 2 ^ bits)%Z.

Fixpoint convert (t : ctype) (v : Z) : Z :=
  match t with
  | CVoid => 0
  | CBool => if v =? 0 then 0 else 1
  | CChar => wrap_signed 8 v
  | CInt true bits => wrap_signed bits v
  | CInt false bits => wrap_unsigned bits v
  | CConst t' => convert t' v
  | CPointer _ => v
  end%Z.

(** The values an object of the type can hold, for the types with two
    values; [None] for the others. *)
Definition two_valued (t : ctype) : option (Z * Z) :=
  match t with
  | CBool | CConst CBool => Some (0, 1)%Z
  | _ => None
  end.

(** A parameter type through which the callee may store into the
    caller's object: a pointer whose pointee is not [const]. *)
Definition writable_through (t : ctype) : bool :=
  match t with
  | CPointer (CConst _) => false
  | CPointer _ => true
  | CConst (CPointer (CConst _)) => false
  | CConst (CPointer _) => true
  | _ => false
  end.

(** The first calling-convention specifier wins; without one the
    function has the platform's C calling convention. *)
Fixpoint first_call_conv (attrs : list attribute) : option calling_convention :=
  match attrs with
  | [] => None
  | AttrCallConv cc :: _ => Some cc
  | AttrExport :: rest => first_call_conv rest
  end.

Definition calling_convention_of (d : fun_decl) : calling_convention :=
  default Cdecl (first_call_conv (fd_attrs d)).

Definition exported (d : fun_decl) : bool :=
  bool_decide (AttrExport ∈ fd_attrs d).

End CTypes.
Export CTypes.

(** ** The header, line by line *)

Module Header.

Inductive include_form := Quoted | Angled.

(** A function prototype as written: the identifiers in front of the
    return type (macros that expand to declaration specifiers), the
    return type, the name and the parameters. *)
Record prototype := {
  proto_specs : list string;
  proto_ret : type_expr;
  proto_name : string;
  proto_params : list (type_expr * string);
}.

Inductive line :=
| Blank
| PPPragmaOnce                                   (* #pragma once *)
| PPInclude (form : include_form) (file : string)
| PPIfdef (macro : string)
| PPEndif
| LineComment (text : string)
| ExternBlockOpen (lang : string)                (* extern "lang" { *)
| BlockClose                                     (* } *)
| Proto (p : prototype).

(** [cue4parse_c_api.h], one entry per source line. *)
Definition cue4parse_c_api_h : list line := [
  (*  1 *) PPPragmaOnce;
  (*  2 *) Blank;
  (*  3 *) PPInclude Quoted "Framework.h";
  (*  4 *) PPInclude Angled "stdint.h";
  (*  5 *) PPInclude Angled "stdbool.h";
  (*  6 *) Blank;
  (*  7 *) PPIfdef "__cplusplus";
  (*  8 *) ExternBlockOpen "C";
  (*  9 *) PPEndif;
  (* 10 *) Blank;
  (* 11 *) LineComment "Simple feature availability check - this is what's currently implemented";
  (* 12 *) Proto {| proto_specs := ["DLLEXPORT"];
                    proto_ret := TName "bool";
                    proto_name := "IsFeatureAvailable";
                    proto_params := [(TPointer (TConst (TName "char")), "feature")] |};
  (* 13 *) Blank;
  (* 14 *) PPIfdef "__cplusplus";
  (* 15 *) BlockClose;
  (* 16 *) PPEndif
].

(** *** Translation errors *)

Inductive error :=
| EndifWithoutIf
| UnterminatedConditional
| FileNotFound (file : string)
| UnknownTypeName (id : string)
| UnknownSpecifier (id : string)
| LinkageSpecNotAllowed (lang : string)
| UnmatchedBrace
| UnclosedBlock.

Inductive result (A : Type) :=
| Ok (a : A)
| Err (e : error).
Arguments Ok {A} a.
Arguments Err {A} e.

#[export] Instance result_ret : MRet result := λ A, Ok.
#[export] Instance result_bind : MBind result :=
  λ A B f r, match r with Ok a => f a | Err e => Err e end.
#[export] Instance result_fmap : FMap result :=
  λ A B f r, match r with Ok a => Ok (f a) | Err e => Err e end.

Definition from_option {A} (e : error) (o : option A) : result A :=
  match o with Some a => Ok a | None => Err e end.

(** *** The compilation environment *)

Record env := {
  env_macros : gset string;                    (* names [#ifdef] finds defined *)
  env_specs : gmap string (list attribute);    (* specifier macros and their expansion *)
  env_types : gmap string ctype;               (* type names in scope *)
}.

(** A C compiler does not predefine [__cplusplus] and does not know
    [bool]; a C++ compiler predefines the one and has the other built in. *)
Definition initial_env (lang : language) : env :=
  match lang with
  | LangC =>
      {| env_macros := {["__STDC__"]};
         env_specs := ∅;
         env_types := {[ "void" := CVoid; "char" := CChar; "int" := CInt true 32;
                         "_Bool" := CBool ]} |}
  | LangCxx =>
      {| env_macros := {["__cplusplus"]};
         env_specs := ∅;
         env_types := {[ "void" := CVoid; "char" := CChar; "int" := CInt true 32;
                         "bool" := CBool ]} |}
  end.

Definition stdint_types : gmap string ctype :=
  {[ "int8_t" := CInt true 8; "int16_t" := CInt true 16;
     "int32_t" := CInt true 32; "int64_t" := CInt true 64;
     "uint8_t" := CInt false 8; "uint16_t" := CInt false 16;
     "uint32_t" := CInt false 32; "uint64_t" := CInt false 64 ]}.

(** Modelled from the spec: the expansion of the [DLLEXPORT] macro, which
    [Framework.h] defines and which is not among the sources.  The spec
    gives the function's linkage as "C calling convention, exported from
    a shared library": the macro marks the symbol as exported and names
    no calling convention of its own. *)
Definition DLLEXPORT : list attribute := [AttrExport].

(** The headers the file includes.  [<stdbool.h>] makes [bool] a name for
    [_Bool] in C (C99 7.16) and changes nothing in C++. *)
Definition include_file (lang : language) (form : include_form) (file : string)
    (e : env) : result env :=
  match form with
  | Angled =>
      if String.eqb file "stdint.h" then
        Ok {| env_macros := env_macros e;
              env_specs := env_specs e;
              env_types := stdint_types ∪ env_types e |}
      else if String.eqb file "stdbool.h" then
        match lang with
        | LangC =>
            Ok {| env_macros :=
                    {["bool"; "true"; "false"; "__bool_true_false_are_defined"]}
                    ∪ env_macros e;
                  env_specs := env_specs e;
                  env_types := <["bool" := CBool]> (env_types e) |}
        | LangCxx =>
            Ok {| env_macros := {["__bool_true_false_are_defined"]} ∪ env_macros e;
                  env_specs := env_specs e;
                  env_types := env_types e |}
        end
      else Err (FileNotFound file)
  | Quoted =>
      if String.eqb file "Framework.h" then
        Ok {| env_macros := {["DLLEXPORT"]} ∪ env_macros e;
              env_specs := <["DLLEXPORT" := DLLEXPORT]> (env_specs e);
              env_types := env_types e |}
      else Err (FileNotFound file)
  end.

Fixpoint resolve (e : env) (t : type_expr) : result ctype :=
  match t with
  | TName id => from_option (UnknownTypeName id) (env_types e !! id)
  | TConst t' => CConst <$> resolve e t'
  | TPointer t' => CPointer <$> resolve e t'
  end.

Fixpoint resolve_params (e : env) (ps : list (type_expr * string))
    : result (list (ctype * string)) :=
  match ps with
  | [] => Ok []
  | (t, x) :: rest =>
      c ← resolve e t;
      cs ← resolve_params e rest;
      Ok ((c, x) :: cs)
  end.

Fixpoint expand_specs (e : env) (ids : list string) : result (list attribute) :=
  match ids with
  | [] => Ok []
  | id :: rest =>
      a ← from_option (UnknownSpecifier id) (env_specs e !! id);
      b ← expand_specs e rest;
      Ok (a ++ b)%list
  end.

(** *** Translating the lines *)

Record state := {
  st_env : env;
  st_conds : list bool;        (* open [#ifdef]s, innermost first *)
  st_blocks : list linkage;    (* open linkage blocks, innermost first *)
  st_decls : list fun_decl;    (* functions declared so far, latest first *)
}.

Definition initial_state (lang : language) : state :=
  {| st_env := initial_env lang; st_conds := []; st_blocks := []; st_decls := [] |}.

Definition active (s : state) : bool := forallb id (st_conds s).

Definition default_linkage (lang : language) : linkage :=
  match lang with LangC => LinkageC | LangCxx => LinkageCxx end.

Definition current_linkage (lang : language) (s : state) : linkage :=
  match st_blocks s with
  | l :: _ => l
  | [] => default_linkage lang
  end.

(** A prototype is recorded as it is written, with the linkage of the
    innermost open block.  It is not compared with earlier declarations
    of the same name, and no property below depends on how a later
    declaration of a name already declared is treated. *)
Definition add_prototype (lang : language) (p : prototype) (s : state) : result state :=
  attrs ← expand_specs (st_env s) (proto_specs p);
  ret ← resolve (st_env s) (proto_ret p);
  params ← resolve_params (st_env s) (proto_params p);
  Ok {| st_env := st_env s;
        st_conds := st_conds s;
        st_blocks := st_blocks s;
        st_decls := {| fd_name := proto_name p;
                       fd_ret := ret;
                       fd_params := params;
                       fd_linkage := current_linkage lang s;
                       fd_attrs := attrs |} :: st_decls s |}.

(** One line.  [#pragma once] has no effect on the first reading of a
    file, and [run] reads its lines once: reading the same file a second
    time is not modelled. *)
Definition step (lang : language) (s : state) (l : line) : result state :=
  match l with
  | PPIfdef m =>
      Ok {| st_env := st_env s;
            st_conds := bool_decide (m ∈ env_macros (st_env s)) :: st_conds s;
            st_blocks := st_blocks s;
            st_decls := st_decls s |}
  | PPEndif =>
      match st_conds s with
      | [] => Err EndifWithoutIf
      | _ :: conds =>
          Ok {| st_env := st_env s; st_conds := conds;
                st_blocks := st_blocks s; st_decls := st_decls s |}
      end
  | _ =>
      if negb (active s) then Ok s else
      match l with
      | PPInclude form file =>
          e ← include_file lang form file (st_env s);
          Ok {| st_env := e; st_conds := st_conds s;
                st_blocks := st_blocks s; st_decls := st_decls s |}
      | ExternBlockOpen name =>
          match lang with
          | LangC => Err (LinkageSpecNotAllowed name)
          | LangCxx =>
              k ← (if String.eqb name "C" then Ok LinkageC
                   else if String.eqb name "C++" then Ok LinkageCxx
                   else Err (LinkageSpecNotAllowed name));
              Ok {| st_env := st_env s; st_conds := st_conds s;
                    st_blocks := k :: st_blocks s; st_decls := st_decls s |}
          end
      | BlockClose =>
          match st_blocks s with
          | [] => Err UnmatchedBrace
          | _ :: blocks =>
              Ok {| st_env := st_env s; st_conds := st_conds s;
                    st_blocks := blocks; st_decls := st_decls s |}
          end
      | Proto p => add_prototype lang p s
      | _ => Ok s
      end
  end.

Fixpoint run (lang : language) (s : state) (ls : list line) : result state :=
  match ls with
  | [] => Ok s
  | l :: rest => s' ← step lang s l; run lang s' rest
  end.

(** The functions a translation unit that consists of the lines declares,
    in source order. *)
Definition translate (lang : language) (ls : list line) : result (list fun_decl) :=
  s ← run lang (initial_state lang) ls;
  match st_conds s, st_blocks s with
  | _ :: _, _ => Err UnterminatedConditional
  | [], _ :: _ => Err UnclosedBlock
  | [], [] => Ok (rev (st_decls s))
  end.

(** The declaration on line 12, as both compilers understand it. *)
Definition IsFeatureAvailable_decl : fun_decl :=
  {| fd_name := "IsFeatureAvailable";
     fd_ret := CBool;
     fd_params := [(CPointer (CConst CChar), "feature")];
     fd_linkage := LinkageC;
     fd_attrs := [AttrExport] |}.

Definition declared_names (lang : language) (ls : list line) : result (list string) :=
  map fd_name <$> translate lang ls.

Definition find_decl (name : string) (ds : list fun_decl) : option fun_decl :=
  List.find (λ d, String.eqb (fd_name d) name) ds.

End Header.
Export Header.

(** ** Calling the function *)

Module Call.

(** Memory is a finite map from objects to their bytes; a pointer is null
    or designates a byte offset inside an object. *)
Definition block := positive.

Inductive pointer :=
| NullPtr
| Ptr (b : block) (off : nat).
Arguments Ptr b%_positive off%_nat.

Abbreviation memory := (gmap block (list byte)).

Definition NUL : byte := x00.

(** The characters from the head of [bytes] up to the first NUL; nothing
    when the bytes end before a NUL is met. *)
Fixpoint scan_cstring (bytes : list byte) : option (list byte) :=
  match bytes with
  | [] => None
  | c :: rest =>
      if Byte.eqb c NUL then Some [] else cons c <$> scan_cstring rest
  end.

Definition load_cstring (m : memory) (p : pointer) : option (list byte) :=
  match p with
  | NullPtr => None
  | Ptr b off => bytes ← m !! b; scan_cstring (drop off bytes)
  end.

(** [p] points to a null-terminated string: it designates a live object
    that holds a NUL at or after the offset. *)
Definition valid_cstring (m : memory) (p : pointer) : Prop :=
  ∃ b off bytes n,
    p = Ptr b off ∧ m !! b = Some bytes ∧ bytes !! (off + n) = Some NUL.

Inductive outcome :=
| Returned (m : memory) (v : Z)   (* the call returned [v], leaving memory [m] *)
| Undefined.                      (* the argument was not a string: no behaviour defined *)

Section Body.

(** The feature-check logic of the native module: the value of the
    expression the body returns, computed from the feature name and
    whatever state the module consults. *)
Variable feature_check : memory → list byte → Z.

(** Modelled from the spec: the body of [IsFeatureAvailable], which is
    not among the sources (the header holds its prototype only).  The
    spec: the function "takes one null-terminated string identifying a
    feature name; returns a boolean"; "for any valid identifying string
    input, the function returns a boolean value (no crash, no additional
    output) and the call completes"; "the only data touched is a single
    textual feature identifier passed by reference and a boolean
    result".  The spec leaves open "the actual feature-check logic, the
    set of recognized feature names", which is the section's parameter,
    and "the behavior on malformed input", which is [Undefined].  The
    value returned is converted to the declared return type. *)
Definition IsFeatureAvailable (m : memory) (feature : pointer) : outcome :=
  match load_cstring m feature with
  | Some name =>
      Returned m (convert (fd_ret IsFeatureAvailable_decl) (feature_check m name))
  | None => Undefined
  end.

End Body.

End Call.
Export Call.

(** ** A concrete memory and call, for the examples *)

Definition demo_name : list byte := String.list_byte_of_string "feature".

Definition demo_memory : memory :=
  {[ 1%positive := (demo_name ++ [NUL])%list;
     2%positive := String.list_byte_of_string "unterminated" ]}.

Definition demo_feature : pointer := Ptr 1 0.

(** A body that returns a non-zero integer for the one name it knows. *)
Definition demo_check : memory → list byte → Z :=
  λ _ name, if String.eqb (String.string_of_list_byte name) "feature" then 7%Z else 0%Z.

(** ** Including the header in a larger translation unit *)

(** The environment after lines 3 to 5, from the environment before
    them. *)
Definition header_env (lang : language) (e : env) : env :=
  {| env_macros :=
       match lang with
       | LangC =>
           {["bool"; "true"; "false"; "__bool_true_false_are_defined"]}
           ∪ ({["DLLEXPORT"]} ∪ env_macros e)
       | LangCxx =>
           {["__bool_true_false_are_defined"]} ∪ ({["DLLEXPORT"]} ∪ env_macros e)
       end;
     env_specs := <["DLLEXPORT" := DLLEXPORT]> (env_specs e);
     env_types :=
       match lang with
       | LangC => <["bool" := CBool]> (stdint_types ∪ env_types e)
       | LangCxx => stdint_types ∪ env_types e
       end |}.

(** The state of the translation when the header is all a unit has
    read. *)
Definition header_state (lang : language) : state :=
  {| st_env := header_env lang (initial_env lang);
     st_conds := [];
     st_blocks := [];
     st_decls := [IsFeatureAvailable_decl] |}.

(** A prototype that follows the header in a unit. *)
Definition demo_next_prototype : prototype :=
  {| proto_specs := [];
     proto_ret := TName "int";
     proto_name := "Next";
     proto_params := [(TName "uint8_t", "x")] |}.

(** A point inside a conditional region that is not taken, and a C
    compiler run with [__cplusplus] defined. *)
Definition demo_inactive_state : state :=
  {| st_env := initial_env LangC;
     st_conds := [true; false];
     st_blocks := [];
     st_decls := [] |}.

Definition demo_misconfigured_state : state :=
  {| st_env := {| env_macros := {["__cplusplus"]} ∪ env_macros (initial_env LangC);
                  env_specs := env_specs (initial_env LangC);
                  env_types := env_types (initial_env LangC) |};
     st_conds := [];
     st_blocks := [];
     st_decls := [] |}.

(** * Properties *)

(** ** The translation of the header *)

Lemma translate_header (lang : language) :
  translate lang cue4parse_c_api_h = Ok [IsFeatureAvailable_decl].
Proof. destruct lang; vm_compute; reflexivity. Qed.

Lemma find_IsFeatureAvailable (lang : language) :
  find_decl "IsFeatureAvailable" <$> translate lang cue4parse_c_api_h
  = Ok (Some IsFeatureAvailable_decl).
Proof. rewrite translate_header. reflexivity. Qed.

(** ** Null-terminated strings *)

Lemma scan_cstring_Some (bytes name : list byte) :
  scan_cstring bytes = Some name ↔
  (NUL ∉ name) ∧ (∃ rest, bytes = (name ++ NUL :: rest)%list).
Proof.
  revert name. induction bytes as [|c bytes IH]; intros name; simpl.
  - split; [done|]. intros [_ [rest Hrest]]. by destruct name.
  - destruct (Byte.eqb c NUL) eqn:Hc.
    + apply Byte.byte_dec_bl in Hc as ->. split.
      * intros [= <-]. split; [apply not_elem_of_nil|]. by exists bytes.
      * intros [Hnot [rest Hrest]]. destruct name as [|c' name]; [done|].
        simplify_eq/=. exfalso. apply Hnot. left.
    + apply Byte.eqb_false in Hc. split.
      * destruct (scan_cstring bytes) as [name'|] eqn:Hscan; [|done].
        intros [= <-]. destruct (proj1 (IH name') eq_refl) as [Hnot [rest ->]].
        split; [|by exists rest].
        rewrite not_elem_of_cons. split; [congruence|done].
      * intros [Hnot [rest Hrest]]. destruct name as [|c' name]; simplify_eq/=.
        apply not_elem_of_cons in Hnot as [_ Hnot].
        rewrite (proj2 (IH name)); [done|]. split; [done|by exists rest].
Qed.

Lemma scan_cstring_is_Some (bytes : list byte) :
  is_Some (scan_cstring bytes) ↔ NUL ∈ bytes.
Proof.
  induction bytes as [|c bytes IH]; simpl.
  - split; [by intros [? ?]|by intros ?%elem_of_nil].
  - destruct (Byte.eqb c NUL) eqn:Hc.
    + apply Byte.byte_dec_bl in Hc as ->. split; [intros _; left|by eexists].
    + apply Byte.eqb_false in Hc. rewrite elem_of_cons, <- IH.
      rewrite fmap_is_Some. split; [by right|]. intros [?|?]; [congruence|done].
Qed.

Lemma load_cstring_is_Some (m : memory) (p : pointer) :
  is_Some (load_cstring m p) ↔ valid_cstring m p.
Proof.
  unfold valid_cstring. destruct p as [|b off]; simpl.
  - split; [by intros [? ?]|]. by intros (?&?&?&?&?&_).
  - destruct (m !! b) as [bytes|] eqn:Hb; simpl.
    + rewrite scan_cstring_is_Some, list_elem_of_lookup. split.
      * intros [n Hn]. rewrite lookup_drop in Hn. by exists b, off, bytes, n.
      * intros (b'&off'&bytes'&n&[= <- <-]&Hb'&Hn). simplify_eq.
        exists n. by rewrite lookup_drop.
    + split; [by intros [? ?]|]. intros (b'&off'&bytes'&n&[= <- <-]&Hb'&_).
      congruence.
Qed.

Lemma convert_bool (v : Z) :
  convert CBool v = Z.b2z (negb (v =? 0)%Z).
Proof. simpl. by destruct (v =? 0)%Z. Qed.

Lemma convert_bool_cases (v : Z) :
  convert CBool v = 0%Z ∨ convert CBool v = 1%Z.
Proof. simpl. destruct (v =? 0)%Z; auto. Qed.

(** ** The call *)

Section CallLemmas.

Variable feature_check : memory → list byte → Z.

Lemma call_valid (m : memory) (feature : pointer) (name : list byte) :
  load_cstring m feature = Some name →
  IsFeatureAvailable feature_check m feature
  = Returned m (Z.b2z (negb (feature_check m name =? 0)%Z)).
Proof.
  intros Hname. unfold IsFeatureAvailable. rewrite Hname. simpl fd_ret.
  by rewrite convert_bool.
Qed.

Lemma call_returned (m m' : memory) (feature : pointer) (v : Z) :
  IsFeatureAvailable feature_check m feature = Returned m' v →
  m' = m ∧ (v = 0%Z ∨ v = 1%Z) ∧ valid_cstring m feature.
Proof.
  unfold IsFeatureAvailable.
  destruct (load_cstring m feature) as [name|] eqn:Hname; [|done].
  intros [= <- <-]. split; [done|]. split; [apply convert_bool_cases|].
  apply load_cstring_is_Some. by rewrite Hname.
Qed.

End CallLemmas.

(** ** A concrete call *)

Lemma demo_valid : valid_cstring demo_memory demo_feature.
Proof.
  exists 1%positive, 0, (demo_name ++ [NUL])%list, 7.
  split; [reflexivity|]. split; vm_compute; reflexivity.
Qed.

Example demo_call :
  IsFeatureAvailable demo_check demo_memory demo_feature = Returned demo_memory 1.
Proof. vm_compute. reflexivity. Qed.

Example demo_call_inside :
  IsFeatureAvailable demo_check demo_memory (Ptr 1 3) = Returned demo_memory 0.
Proof. vm_compute. reflexivity. Qed.

Example demo_call_null :
  IsFeatureAvailable demo_check demo_memory NullPtr = Undefined.
Proof. reflexivity. Qed.

Example demo_call_unterminated :
  IsFeatureAvailable demo_check demo_memory (Ptr 2 0) = Undefined.
Proof. vm_compute. reflexivity. Qed.

Example demo_call_dangling :
  IsFeatureAvailable demo_check demo_memory (Ptr 3 0) = Undefined.
Proof. vm_compute. reflexivity. Qed.

(** ** What the lines of the header are there for *)

(** Without the [#ifdef __cplusplus] guards a C compiler rejects the header. *)
Example unguarded_block_rejected_in_C :
  translate LangC
    (List.filter (λ l, match l with PPIfdef _ | PPEndif => false | _ => true end)
                 cue4parse_c_api_h)
  = Err (LinkageSpecNotAllowed "C").
Proof. vm_compute. reflexivity. Qed.

(** Without the linkage block a C++ compiler gives the function C++ linkage. *)
Example no_block_Cxx_linkage :
  map fd_linkage <$>
    translate LangCxx
      (List.filter (λ l, match l with
                         | ExternBlockOpen _ | BlockClose => false
                         | _ => true
                         end) cue4parse_c_api_h)
  = Ok [LinkageCxx].
Proof. vm_compute. reflexivity. Qed.

(** Without line 5 the name [bool] is unknown to a C compiler (as far as
    the modelled [Framework.h] goes). *)
Example no_stdbool_rejected_in_C :
  translate LangC (delete 4 cue4parse_c_api_h) = Err (UnknownTypeName "bool").
Proof. vm_compute. reflexivity. Qed.

(** Without line 3 the specifier macro is unknown. *)
Example no_framework_rejected (lang : language) :
  translate lang (delete 2 cue4parse_c_api_h) = Err (UnknownSpecifier "DLLEXPORT").
Proof. destruct lang; vm_compute; reflexivity. Qed.

(** * The interface claims *)

(** C1. For every valid null-terminated string naming a feature, a call
    to [IsFeatureAvailable] completes and returns a boolean value; it
    does not end in undefined behaviour. *)
Theorem IsFeatureAvailable_returns
    (feature_check : memory → list byte → Z) (m : memory) (feature : pointer) :
  valid_cstring m feature →
  ∃ (m' : memory) (b : bool),
    IsFeatureAvailable feature_check m feature = Returned m' (Z.b2z b).
Proof.
  intros [name Hname]%load_cstring_is_Some.
  exists m, (negb (feature_check m name =? 0)%Z). by apply call_valid.
Qed.

Lemma IsFeatureAvailable_returns_witness :
  valid_cstring demo_memory demo_feature ∧
  ∃ (m' : memory) (b : bool),
    IsFeatureAvailable demo_check demo_memory demo_feature = Returned m' (Z.b2z b).
Proof.
  split; [exact demo_valid|].
  apply (IsFeatureAvailable_returns demo_check demo_memory demo_feature).
  exact demo_valid.
Defined.

(** C2. [IsFeatureAvailable] takes exactly one parameter, a pointer to
    constant characters (a null-terminated string naming a feature), and
    its result type is the boolean type, whichever of C and C++ reads the
    header. *)
Theorem IsFeatureAvailable_signature (lang : language) :
  ∃ d : fun_decl,
    find_decl "IsFeatureAvailable" <$> translate lang cue4parse_c_api_h = Ok (Some d)
    ∧ length (fd_params d) = 1
    ∧ fd_params d = [(CPointer (CConst CChar), "feature")]
    ∧ fd_ret d = CBool.
Proof.
  exists IsFeatureAvailable_decl. rewrite find_IsFeatureAvailable. done.
Qed.

(** C5. The header has 16 lines and declares exactly one function,
    [IsFeatureAvailable], with C linkage; it is also the only exported
    one, and line 12 is the only line that declares anything. *)
Theorem header_declares_one_function (lang : language) :
  length cue4parse_c_api_h = 16
  ∧ declared_names lang cue4parse_c_api_h = Ok ["IsFeatureAvailable"]
  ∧ (map fd_linkage <$> translate lang cue4parse_c_api_h) = Ok [LinkageC]
  ∧ (map fd_name ∘ List.filter exported <$> translate lang cue4parse_c_api_h)
    = Ok ["IsFeatureAvailable"]
  ∧ (∀ (i : nat) (p : prototype),
       cue4parse_c_api_h !! i = Some (Proto p) ↔
       i = 11 ∧ p = {| proto_specs := ["DLLEXPORT"];
                       proto_ret := TName "bool";
                       proto_name := "IsFeatureAvailable";
                       proto_params := [(TPointer (TConst (TName "char")), "feature")] |}).
Proof.
  split; [reflexivity|]. unfold declared_names. rewrite translate_header.
  do 3 (split; [reflexivity|]).
  intros i p. split.
  - do 16 (destruct i as [|i]; [first [discriminate | by intros [= <-]]|]).
    discriminate.
  - intros [-> ->]. reflexivity.
Qed.

(** C6. [IsFeatureAvailable] is declared with C linkage, the C calling
    convention and the export specifier, and its types are a pointer to
    characters and the C boolean: a C compiler and a C++ compiler read
    the same declaration from the header. *)
Theorem IsFeatureAvailable_C_linkage :
  ∃ d : fun_decl,
    translate LangC cue4parse_c_api_h = Ok [d]
    ∧ translate LangCxx cue4parse_c_api_h = Ok [d]
    ∧ fd_name d = "IsFeatureAvailable"
    ∧ fd_linkage d = LinkageC
    ∧ calling_convention_of d = Cdecl
    ∧ exported d = true
    ∧ map fst (fd_params d) = [CPointer (CConst CChar)]
    ∧ fd_ret d = CBool.
Proof.
  exists IsFeatureAvailable_decl. rewrite !translate_header. done.
Qed.

(** C7. [IsFeatureAvailable] does not modify the caller's feature-name
    string: its parameter is a pointer to constant characters, through
    which nothing can be stored, and the string the argument points to
    is the same after the call as before. *)
Theorem IsFeatureAvailable_preserves_string :
  (∀ lang : language, ∃ d : fun_decl,
      find_decl "IsFeatureAvailable" <$> translate lang cue4parse_c_api_h = Ok (Some d)
      ∧ map fst (fd_params d) = [CPointer (CConst CChar)]
      ∧ forallb (λ p : ctype * string, negb (writable_through p.1)) (fd_params d) = true)
  ∧ (∀ (feature_check : memory → list byte → Z) (m m' : memory)
       (feature : pointer) (name : list byte) (v : Z),
      load_cstring m feature = Some name →
      IsFeatureAvailable feature_check m feature = Returned m' v →
      load_cstring m' feature = Some name).
Proof.
  split.
  - intros lang. exists IsFeatureAvailable_decl.
    rewrite find_IsFeatureAvailable. done.
  - intros feature_check m m' feature name v Hname Hcall.
    by destruct (call_returned _ _ _ _ _ Hcall) as [-> _].
Qed.

Lemma IsFeatureAvailable_preserves_string_witness :
  load_cstring demo_memory demo_feature = Some demo_name
  ∧ IsFeatureAvailable demo_check demo_memory demo_feature = Returned demo_memory 1
  ∧ load_cstring demo_memory demo_feature = Some demo_name.
Proof.
  assert (Hname : load_cstring demo_memory demo_feature = Some demo_name)
    by (vm_compute; reflexivity).
  split; [exact Hname|]. split; [exact demo_call|].
  exact (proj2 IsFeatureAvailable_preserves_string
           demo_check demo_memory demo_memory demo_feature demo_name 1%Z
           Hname demo_call).
Defined.

(** C8. The result type of [IsFeatureAvailable] is the two-valued boolean
    type, which line 5 of the header ([<stdbool.h>]) names [bool] for a C
    compiler: whatever value the body hands to [return], the value the
    caller receives is 0 or 1. *)
Theorem IsFeatureAvailable_result_two_valued :
  (∀ lang : language, ∃ d : fun_decl,
      find_decl "IsFeatureAvailable" <$> translate lang cue4parse_c_api_h = Ok (Some d)
      ∧ fd_ret d = CBool
      ∧ two_valued (fd_ret d) = Some (0, 1)%Z
      ∧ ∀ v : Z, convert (fd_ret d) v = 0%Z ∨ convert (fd_ret d) v = 1%Z)
  ∧ cue4parse_c_api_h !! 4 = Some (PPInclude Angled "stdbool.h")
  ∧ (∀ e : env, ∃ e' : env,
       include_file LangC Angled "stdbool.h" e = Ok e'
       ∧ resolve e' (TName "bool") = Ok CBool).
Proof.
  split; [|split; [reflexivity|]].
  - intros lang. exists IsFeatureAvailable_decl.
    rewrite find_IsFeatureAvailable. repeat split. apply convert_bool_cases.
  - intros e. eexists. split; [reflexivity|].
    simpl. by rewrite lookup_insert_eq.
Qed.

(** * The header inside a translation unit *)

Lemma run_app (lang : language) (s : state) (ls1 ls2 : list line) :
  run lang s (ls1 ++ ls2)%list = s' ← run lang s ls1; run lang s' ls2.
Proof.
  revert s. induction ls1 as [|l ls1 IH]; intros s; simpl; [done|].
  destruct (step lang s l) as [s1|e]; simpl; [apply IH|done].
Qed.

Lemma run_header_initial (lang : language) :
  run lang (initial_state lang) cue4parse_c_api_h = Ok (header_state lang).
Proof. destruct lang; vm_compute; reflexivity. Qed.

Lemma header_env_cplusplus (lang : language) (e : env) :
  "__cplusplus" ∈ env_macros (header_env lang e) ↔ "__cplusplus" ∈ env_macros e.
Proof.
  destruct lang; simpl; rewrite !elem_of_union, !elem_of_singleton;
    intuition discriminate.
Qed.

Lemma run_cons (lang : language) (s : state) (l : line) (ls : list line) :
  run lang s (l :: ls) = s' ← step lang s l; run lang s' ls.
Proof. reflexivity. Qed.

Lemma bind_Ok {A B} (a : A) (f : A → result B) : (Ok a ≫= f) = f a.
Proof. reflexivity. Qed.

Section Steps.

Context (lang : language) (e : env) (conds : list bool) (blocks : list linkage)
  (decls : list fun_decl).

Let mk := Build_state.

Lemma step_ifdef (m : string) :
  step lang (mk e conds blocks decls) (PPIfdef m)
  = Ok (mk e (bool_decide (m ∈ env_macros e) :: conds) blocks decls).
Proof. reflexivity. Qed.

Lemma step_endif (c : bool) :
  step lang (mk e (c :: conds) blocks decls) PPEndif = Ok (mk e conds blocks decls).
Proof. reflexivity. Qed.

Lemma step_plain (l : line) :
  match l with Blank | PPPragmaOnce | LineComment _ => True | _ => False end →
  step lang (mk e conds blocks decls) l = Ok (mk e conds blocks decls).
Proof. destruct l; try done; intros _; unfold step; by destruct (negb _). Qed.

Lemma step_include (form : include_form) (file : string) :
  forallb id conds = true →
  step lang (mk e conds blocks decls) (PPInclude form file)
  = e' ← include_file lang form file e; Ok (mk e' conds blocks decls).
Proof. intros Hact. unfold step, active. simpl st_conds. by rewrite Hact. Qed.

End Steps.

Ltac run_line lem :=
  rewrite run_cons, lem by done;
  cbn [include_file String.eqb Ascii.eqb Bool.eqb];
  rewrite ?bind_Ok.

(** Lines 1 to 5: the three includes always succeed at an active point. *)
Lemma run_includes (lang : language) (e : env) (conds : list bool)
    (blocks : list linkage) (decls : list fun_decl) (rest : list line) :
  forallb id conds = true →
  run lang (Build_state e conds blocks decls) (take 5 cue4parse_c_api_h ++ rest)%list
  = run lang (Build_state (header_env lang e) conds blocks decls) rest.
Proof.
  intros Hact. cbn [take cue4parse_c_api_h app].
  do 2 run_line step_plain. do 2 run_line step_include.
  rewrite run_cons, step_include by done.
  destruct lang; reflexivity.
Qed.

Lemma step_inactive (lang : language) (s : state) (l : line) :
  active s = false →
  match l with PPIfdef _ | PPEndif => False | _ => True end →
  step lang s l = Ok s.
Proof. intros Hact Hl. destruct l; try done; unfold step; by rewrite Hact. Qed.

(** Every step keeps the declarations made so far and adds at most one. *)
Lemma step_decls (lang : language) (s s' : state) (l : line) :
  step lang s l = Ok s' →
  st_decls s' = st_decls s ∨ ∃ d, st_decls s' = d :: st_decls s.
Proof.
  destruct l; unfold step;
    try (destruct (negb (active s)); [intros [= <-]; by left|]);
    try (intros [= <-]; by left).
  - destruct (include_file lang form file (st_env s)); [|done].
    intros [= <-]. by left.
  - destruct (st_conds s); [done|]. intros [= <-]. by left.
  - destruct lang; [done|].
    destruct (if String.eqb lang0 "C" then _ else _); [|done].
    intros [= <-]. by left.
  - destruct (st_blocks s); [done|]. intros [= <-]. by left.
  - unfold add_prototype.
    destruct (expand_specs _ _); [|done]. destruct (resolve _ _); [|done].
    destruct (resolve_params _ _); [|done]. intros [= <-]. right. by eexists.
Qed.

Lemma run_decls (lang : language) (ls : list line) (s s' : state) :
  run lang s ls = Ok s' → ∃ new, st_decls s' = (new ++ st_decls s)%list.
Proof.
  revert s. induction ls as [|l ls IH]; intros s; simpl.
  - intros [= <-]. by exists [].
  - destruct (step lang s l) as [s1|] eqn:Hstep; [|done]. simpl.
    intros [new Hnew]%IH. apply step_decls in Hstep as [Heq|[d Heq]].
    + exists new. by rewrite Hnew, Heq.
    + exists (new ++ [d])%list. by rewrite Hnew, Heq, <- app_assoc.
Qed.

(** * Extra properties of the header *)

(** X2. Inside a conditional region that is not taken, the header
    declares nothing, defines nothing and fails on nothing: its own
    conditionals are balanced, so the translation state after it is the
    state before it. *)
Theorem header_skipped_when_inactive (lang : language) (s : state) :
  active s = false → run lang s cue4parse_c_api_h = Ok s.
Proof.
  intros Hact. destruct s as [e conds blocks decls].
  assert (Hpush : ∀ b, active (Build_state e (b :: conds) blocks decls) = false).
  { intros b. unfold active in *. cbn [st_conds forallb] in *.
    rewrite Hact. apply andb_false_r. }
  unfold cue4parse_c_api_h.
  repeat first
    [ rewrite run_cons, step_inactive, bind_Ok by first [exact Hact | apply Hpush | exact I]
    | rewrite run_cons, step_ifdef, bind_Ok
    | rewrite run_cons, step_endif, bind_Ok ].
  reflexivity.
Qed.

Lemma header_skipped_when_inactive_witness :
  active demo_inactive_state = false
  ∧ run LangC demo_inactive_state cue4parse_c_api_h = Ok demo_inactive_state.
Proof.
  split; [reflexivity|].
  apply (header_skipped_when_inactive LangC demo_inactive_state). reflexivity.
Defined.

(** X3. Whatever lines follow the header in a translation unit, if the
    unit translates then the first function it declares is
    [IsFeatureAvailable], exactly as the header alone declares it. *)
Theorem header_first_declaration (lang : language) (rest : list line)
    (ds : list fun_decl) :
  translate lang (cue4parse_c_api_h ++ rest)%list = Ok ds →
  ∃ ds' : list fun_decl, ds = IsFeatureAvailable_decl :: ds'.
Proof.
  unfold translate. rewrite run_app, run_header_initial, bind_Ok.
  destruct (run lang (header_state lang) rest) as [s'|] eqn:Hrun; [|done].
  apply run_decls in Hrun as [new Hnew]. cbn [st_decls header_state] in Hnew.
  rewrite bind_Ok, Hnew.
  destruct (st_conds s'); [|done]. destruct (st_blocks s'); [|done].
  intros [= <-]. exists (rev new). by rewrite rev_app_distr.
Qed.

Lemma header_first_declaration_witness :
  ∃ ds : list fun_decl,
    translate LangC (cue4parse_c_api_h ++ [Proto demo_next_prototype])%list = Ok ds
    ∧ ∃ ds' : list fun_decl, ds = IsFeatureAvailable_decl :: ds'.
Proof.
  eexists. split; [vm_compute; reflexivity|].
  eapply (header_first_declaration LangC [Proto demo_next_prototype]).
  vm_compute; reflexivity.
Defined.

(** X5. The guard on lines 7 to 9 trusts [__cplusplus]: a C compiler run
    with that macro defined takes the guarded line and rejects the
    header at the linkage specification of line 8. *)
Theorem header_rejected_by_C_with_cplusplus (s : state) :
  active s = true →
  "__cplusplus" ∈ env_macros (st_env s) →
  run LangC s cue4parse_c_api_h = Err (LinkageSpecNotAllowed "C").
Proof.
  intros Hact Hcpp. destruct s as [e conds blocks decls].
  unfold active in Hact. cbn [st_env st_conds] in Hact, Hcpp.
  apply (header_env_cplusplus LangC) in Hcpp.
  change cue4parse_c_api_h
    with (take 5 cue4parse_c_api_h ++ drop 5 cue4parse_c_api_h)%list.
  rewrite run_includes by done. cbn [drop cue4parse_c_api_h].
  run_line step_plain.
  run_line step_ifdef. rewrite (bool_decide_eq_true_2 _ Hcpp).
  rewrite run_cons. unfold step, active. cbn [st_conds forallb id].
  by rewrite Hact.
Qed.

Lemma header_rejected_by_C_with_cplusplus_witness :
  active demo_misconfigured_state = true
  ∧ "__cplusplus" ∈ env_macros (st_env demo_misconfigured_state)
  ∧ run LangC demo_misconfigured_state cue4parse_c_api_h
    = Err (LinkageSpecNotAllowed "C").
Proof.
  assert (Hcpp : "__cplusplus" ∈ env_macros (st_env demo_misconfigured_state))
    by (apply (bool_decide_eq_true_1 _); vm_compute; reflexivity).
  split; [reflexivity|]. split; [exact Hcpp|].
  apply (header_rejected_by_C_with_cplusplus demo_misconfigured_state);
    [reflexivity|exact Hcpp].
Defined.
